(** * lite_proxy: the caching wrapper around the completion backend

    A shallow embedding of [backend/lite_proxy.py]: the fingerprint
    [hash_prompt], the SQLite table [cache], the statements of the
    coordinator [cached_completion] block by block, and the definition as
    Python compiles it, followed by the properties of the specification
    that concern them. *)

From Stdlib Require Import ZArith List String Ascii Bool Lia.
From Stdlib Require Import DecimalString.
From Stdlib Require SpecFloat DecimalPos DecimalZ.
Import ListNotations.

Local Open Scope string_scope.
Local Open Scope list_scope.

(** ** SHA-256 ([hashlib.sha256]), over 32-bit words held in [Z] *)

Module Sha256.
Local Open Scope Z_scope.

Definition w32 (x : Z) : Z := x mod 2 ^ 32.
Definition add32 (a b : Z) : Z := w32 (a + b).
Definition not32 (x : Z) : Z := Z.lxor x 0xffffffff.
Definition rotr (n x : Z) : Z :=
  Z.lor (Z.shiftr x n) (w32 (Z.shiftl x (32 - n))).
Definition shr (n x : Z) : Z := Z.shiftr x n.

Definition Ch (x y z : Z) : Z := Z.lxor (Z.land x y) (Z.land (not32 x) z).
Definition Maj (x y z : Z) : Z :=
  Z.lxor (Z.lxor (Z.land x y) (Z.land x z)) (Z.land y z).
Definition Sigma0 (x : Z) : Z := Z.lxor (Z.lxor (rotr 2 x) (rotr 13 x)) (rotr 22 x).
Definition Sigma1 (x : Z) : Z := Z.lxor (Z.lxor (rotr 6 x) (rotr 11 x)) (rotr 25 x).
Definition sigma0 (x : Z) : Z := Z.lxor (Z.lxor (rotr 7 x) (rotr 18 x)) (shr 3 x).
Definition sigma1 (x : Z) : Z := Z.lxor (Z.lxor (rotr 17 x) (rotr 19 x)) (shr 10 x).

(** The round constants are the first 32 bits of the fractional parts of
    the cube roots of the first 64 primes, the initial state those of the
    square roots of the first 8. *)
Definition is_prime (n : Z) : bool :=
  List.forallb (fun d => negb (n mod Z.of_nat d =? 0)) (List.seq 2 (Z.to_nat n - 2)).

Definition primes : list Z :=
  List.filter is_prime (List.map Z.of_nat (List.seq 2 310)).

(** The integer cube root of [n], found bit by bit from the top. *)
Fixpoint cube_root (bits : nat) (n r : Z) : Z :=
  match bits with
  | O => r
  | S b =>
      let r' := r + 2 ^ Z.of_nat b in
      cube_root b n (if r' * r' * r' <=? n then r' else r)
  end.

Definition K : list Z :=
  Eval vm_compute in List.map (fun p => w32 (cube_root 40 (p * 2 ^ 96) 0)) primes.

Definition H0 : list Z :=
  Eval vm_compute in List.map (fun p => w32 (Z.sqrt (p * 2 ^ 64))) (List.firstn 8 primes).

(** Padding: the byte 0x80, zero bytes up to 56 modulo 64, then the bit
    length as a 64-bit big-endian integer. *)
Fixpoint be_bytes (n : nat) (x : Z) : list Z :=
  match n with
  | O => []
  | S n' => be_bytes n' (Z.shiftr x 8) ++ [x mod 256]
  end.

Definition pad (msg : list Z) : list Z :=
  let len := Z.of_nat (List.length msg) in
  let zeros := Z.to_nat ((55 - len) mod 64) in
  msg ++ [0x80] ++ List.repeat 0 zeros ++ be_bytes 8 (8 * len).

Fixpoint be_words (n : nat) (bs : list Z) : list Z :=
  match n, bs with
  | S n', b0 :: b1 :: b2 :: b3 :: rest =>
      (b0 * 2 ^ 24 + b1 * 2 ^ 16 + b2 * 2 ^ 8 + b3) :: be_words n' rest
  | _, _ => []
  end.

Fixpoint blocks (n : nat) (bs : list Z) : list (list Z) :=
  match n with
  | O => []
  | S n' =>
      match bs with
      | [] => []
      | _ => List.firstn 64 bs :: blocks n' (List.skipn 64 bs)
      end
  end.

(** The message schedule, most recent word first: [rev_w] holds
    W[t-1], W[t-2], ... *)
Fixpoint schedule (n : nat) (rev_w : list Z) : list Z :=
  match n with
  | O => rev_w
  | S n' =>
      let w := add32 (add32 (sigma1 (nth 1 rev_w 0)) (nth 6 rev_w 0))
                     (add32 (sigma0 (nth 14 rev_w 0)) (nth 15 rev_w 0)) in
      schedule n' (w :: rev_w)
  end.

Record regs := Regs { ra : Z; rb : Z; rc : Z; rd : Z; re : Z; rf : Z; rg : Z; rh : Z }.

Definition round (s : regs) (kw : Z * Z) : regs :=
  let '(k, w) := kw in
  let t1 := add32 (add32 (add32 (rh s) (Sigma1 (re s)))
                         (add32 (Ch (re s) (rf s) (rg s)) k)) w in
  let t2 := add32 (Sigma0 (ra s)) (Maj (ra s) (rb s) (rc s)) in
  Regs (add32 t1 t2) (ra s) (rb s) (rc s) (add32 (rd s) t1) (re s) (rf s) (rg s).

Definition regs_of (h : list Z) : regs :=
  Regs (nth 0 h 0) (nth 1 h 0) (nth 2 h 0) (nth 3 h 0)
       (nth 4 h 0) (nth 5 h 0) (nth 6 h 0) (nth 7 h 0).

Definition compress (h : list Z) (block : list Z) : list Z :=
  let w := List.rev (schedule 48 (List.rev (be_words 16 block))) in
  let s := List.fold_left round (List.combine K w) (regs_of h) in
  List.map (fun p => add32 (fst p) (snd p))
    (List.combine h [ra s; rb s; rc s; rd s; re s; rf s; rg s; rh s]).

Definition digest_words (msg : list Z) : list Z :=
  let p := pad msg in
  List.fold_left compress (blocks (List.length p) p) H0.

Definition digest (msg : list Z) : list Z :=
  List.flat_map (be_bytes 4) (digest_words msg).

Definition hex_digit (d : Z) : ascii :=
  if d <? 10 then ascii_of_nat (Z.to_nat (48 + d))
  else ascii_of_nat (Z.to_nat (87 + d)).

Fixpoint hex_of_bytes (bs : list Z) : string :=
  match bs with
  | [] => EmptyString
  | b :: rest => String (hex_digit (b / 16)) (String (hex_digit (b mod 16)) (hex_of_bytes rest))
  end.

Definition hexdigest (msg : list Z) : string := hex_of_bytes (digest msg).

End Sha256.

(** A text is a sequence of code points below 256, one [ascii] each.
    [str.encode()] writes a code point below 128 as one byte and the
    others as two (UTF-8). *)
Definition utf8 (n : nat) : list Z :=
  if Nat.ltb n 128 then [Z.of_nat n]
  else [Z.of_nat (192 + n / 64); Z.of_nat (128 + n mod 64)].

Fixpoint encode (s : string) : list Z :=
  match s with
  | EmptyString => []
  | String c rest => utf8 (nat_of_ascii c) ++ encode rest
  end.

Example sha256_constants :
  List.length Sha256.K = 64%nat
  /\ List.hd 0%Z Sha256.K = 0x428a2f98%Z /\ List.last Sha256.K 0%Z = 0xc67178f2%Z
  /\ List.hd 0%Z Sha256.H0 = 0x6a09e667%Z /\ List.last Sha256.H0 0%Z = 0x5be0cd19%Z.
Proof. repeat split; reflexivity. Qed.

Example sha256_abc :
  Sha256.hexdigest (encode "abc")
  = "ba7816bf8f01cfea414140de5dae2223b00361a396177a9cb410ff61f20015ad".
Proof. vm_compute. reflexivity. Qed.

(** Two blocks. *)
Example sha256_two_blocks :
  Sha256.hexdigest (encode "abcdbcdecdefdefgefghfghighijhijkijkljklmklmnlmnomnopnopq")
  = "248d6a61d20638b8e5c026930c3e6039a33ce45964ff2167f6ecedd419db06c1".
Proof. vm_compute. reflexivity. Qed.

Example sha256_empty :
  Sha256.hexdigest (encode "")
  = "e3b0c44298fc1c149afbf4c8996fb92427ae41e4649b934ca495991b7852b855".
Proof. vm_compute. reflexivity. Qed.

(** ** Python text: [repr] of strings, lists and dicts, and [str.split] *)

Module Py.

Definition quote : ascii := "'"%char.
Definition dquote : ascii := ascii_of_nat 34.
Definition backslash : ascii := "\"%char.
Definition space : ascii := " "%char.

Fixpoint contains (c : ascii) (s : string) : bool :=
  match s with
  | EmptyString => false
  | String d rest => Ascii.eqb c d || contains c rest
  end.

Definition hex2 (n : nat) : string :=
  String (Sha256.hex_digit (Z.of_nat (n / 16)))
    (String (Sha256.hex_digit (Z.of_nat (n mod 16))) EmptyString).

(** One character of [repr(str)]: the enclosing quote and the backslash
    are escaped, tab, newline and carriage return get their letter, the
    other code points that are not printable (0 to 31, 127 to 160 and
    173) are written \xNN, and every other code point stands for
    itself. *)
Definition repr_char (q c : ascii) : string :=
  let n := nat_of_ascii c in
  if Ascii.eqb c q || Ascii.eqb c backslash then String backslash (String c EmptyString)
  else if Nat.eqb n 9 then String backslash "t"
  else if Nat.eqb n 10 then String backslash "n"
  else if Nat.eqb n 13 then String backslash "r"
  else if Nat.ltb n 32 || (Nat.leb 127 n && Nat.leb n 160) || Nat.eqb n 173
  then String backslash (String "x" (hex2 n))
  else String c EmptyString.

Fixpoint repr_body (q : ascii) (s : string) : string :=
  match s with
  | EmptyString => EmptyString
  | String c rest => repr_char q c ++ repr_body q rest
  end.

(** [repr(s)]: single quotes, unless the text holds a single quote and no
    double quote. *)
Definition repr_str (s : string) : string :=
  let q := if contains quote s && negb (contains dquote s) then dquote else quote in
  String q (repr_body q s ++ String q EmptyString).

(** [sep.join(parts)] *)
Fixpoint join (sep : string) (parts : list string) : string :=
  match parts with
  | [] => EmptyString
  | [p] => p
  | p :: rest => p ++ sep ++ join sep rest
  end.

(** A dict with text keys and values, in insertion order. *)
Definition dict := list (string * string).

Definition repr_item (kv : string * string) : string :=
  repr_str (fst kv) ++ ": " ++ repr_str (snd kv).

Definition repr_dict (d : dict) : string :=
  "{" ++ join ", " (List.map repr_item d) ++ "}".

Definition repr_list (l : list dict) : string :=
  "[" ++ join ", " (List.map repr_dict l) ++ "]".

(** [s.split(' ')]: cut at every single space; the empty text gives one
    empty fragment, and neighbouring spaces give empty fragments. *)
Fixpoint split_space (s : string) : list string :=
  match s with
  | EmptyString => [EmptyString]
  | String c rest =>
      if Ascii.eqb c space then EmptyString :: split_space rest
      else match split_space rest with
           | [] => [String c EmptyString]
           | w :: ws => String c w :: ws
           end
  end.

End Py.

Example repr_list_hi :
  Py.repr_list [[("role", "user"); ("content", "hi")]]
  = "[{'role': 'user', 'content': 'hi'}]".
Proof. reflexivity. Qed.

Example repr_str_quotes :
  Py.repr_str "it's" = String Py.dquote ("it's" ++ String Py.dquote "")%string
  /\ Py.repr_str (String Py.dquote "b'c")
     = ("'" ++ String Py.dquote ("b" ++ String Py.backslash "'c'"))%string
  /\ Py.repr_str (String (ascii_of_nat 10) (String (ascii_of_nat 1) (String (ascii_of_nat 127) "")))
     = ("'" ++ String Py.backslash ("n" ++ String Py.backslash ("x01" ++ String Py.backslash "x7f'")))%string.
Proof. repeat split; reflexivity. Qed.

Example split_space_examples :
  Py.split_space "" = [""]
  /\ Py.split_space "a  b " = ["a"; ""; "b"; ""]
  /\ Py.split_space " " = [""; ""]
  /\ Py.split_space "hello there" = ["hello"; "there"].
Proof. repeat split; reflexivity. Qed.

(** ** Python numbers and their [str] *)

Module PyNum.
Import SpecFloat.
Local Open Scope Z_scope.

(** A Python [float] is an IEEE-754 binary64 value: sign, mantissa [m]
    and exponent [e], standing for [m * 2^e], with [2^52 <= m < 2^53] and
    [-1074 <= e <= 971], or [m < 2^52] and [e = -1074]. *)
Definition float := spec_float.

Inductive number : Type :=
  | PyInt (z : Z)
  | PyFloat (f : float).

Definition dec_of_Z (z : Z) : string := NilZero.string_of_int (Z.to_int z).

(** The smallest [k] with [num/den < 10^k]. *)
Fixpoint decpt_up (fuel : nat) (num den k p : Z) : Z :=
  match fuel with
  | O => k
  | S fuel' => if num <? den * p then k else decpt_up fuel' num den (k + 1) (p * 10)
  end.

Fixpoint decpt_down (fuel : nat) (num den k p : Z) : Z :=
  match fuel with
  | O => k
  | S fuel' =>
      if num * (p * 10) <? den then decpt_down fuel' num den (k - 1) (p * 10) else k
  end.

Definition decpt (num den : Z) : Z :=
  if num <? den then decpt_down 400 num den 0 1 else decpt_up 400 num den 1 10.

Section Shortest.
(** The float is [num/den]; a decimal text reads back as this float when
    it lies between [lo/(4 den)] and [hi/(4 den)], the ends included when
    the mantissa is even. *)
Variables (num den lo hi : Z) (even : bool).

(** The candidate [c * 10^q] as a fraction. *)
Definition cand_num (c q : Z) : Z := if 0 <=? q then c * 10 ^ q else c.
Definition cand_den (q : Z) : Z := if 0 <=? q then 1 else 10 ^ (- q).

Definition reads_back (c q : Z) : bool :=
  let cn := cand_num c q * (4 * den) in
  let cd := cand_den q in
  if even then (lo * cd <=? cn) && (cn <=? hi * cd)
  else (lo * cd <? cn) && (cn <? hi * cd).

Definition distance (c q : Z) : Z :=
  Z.abs (cand_num c q * den - num * cand_den q).

(** With [n] digits: the two [n]-digit decimals around the float; the
    nearer of those that read back, and of two equally near the one whose
    last digit is even. *)
Definition with_digits (k n : Z) : option (Z * Z) :=
  let q := k - n in
  let c := if 0 <=? q then num / (den * 10 ^ q) else (num * 10 ^ (- q)) / den in
  match reads_back c q, reads_back (c + 1) q with
  | true, true =>
      if distance c q <? distance (c + 1) q then Some (c, q)
      else if distance (c + 1) q <? distance c q then Some (c + 1, q)
      else if Z.even c then Some (c, q) else Some (c + 1, q)
  | true, false => Some (c, q)
  | false, true => Some (c + 1, q)
  | false, false => None
  end.

Fixpoint shortest (fuel : nat) (k n : Z) : Z * Z :=
  match fuel with
  | O => (if 0 <=? k - n then num / (den * 10 ^ (k - n))
          else (num * 10 ^ (n - k)) / den, k - n)
  | S fuel' =>
      match with_digits k n with
      | Some r => r
      | None => shortest fuel' k (n + 1)
      end
  end.
End Shortest.

Fixpoint strip_zeros (fuel : nat) (c : Z) : Z :=
  match fuel with
  | O => c
  | S fuel' => if (c mod 10 =? 0) && negb (c =? 0) then strip_zeros fuel' (c / 10) else c
  end.

Definition zeros (n : Z) : string :=
  string_of_list_ascii (List.repeat "0"%char (Z.to_nat n)).

(** The digits [ds] with the decimal point after the first [point] of
    them, exponent notation when [point <= -4] or [16 < point]. *)
Definition format_r (ds : string) (point : Z) : string :=
  let n := Z.of_nat (String.length ds) in
  if (point <=? -4) || (16 <? point) then
    let ex := point - 1 in
    let mant := match ds with
                | String c EmptyString => ds
                | String c rest => String c ("." ++ rest)
                | EmptyString => ds
                end in
    let exd := dec_of_Z (Z.abs ex) in
    mant ++ "e" ++ (if ex <? 0 then "-" else "+")
         ++ (if Z.abs ex <? 10 then "0" else "") ++ exd
  else if point <=? 0 then "0." ++ zeros (- point) ++ ds
  else if point <? n then
    substring 0 (Z.to_nat point) ds ++ "." ++
    substring (Z.to_nat point) (Z.to_nat (n - point)) ds
  else ds ++ zeros (point - n) ++ ".0".

Definition repr_finite (m : positive) (e : Z) : string :=
  let u := if 0 <=? e then 2 ^ e else 1 in
  let den := if 0 <=? e then 1 else 2 ^ (- e) in
  let num := Z.pos m * u in
  let narrow := (Z.pos m =? 2 ^ 52) && (-1074 <? e) in
  let lo := 4 * num - (if narrow then 1 else 2) * u in
  let hi := 4 * num + 2 * u in
  let k := decpt num den in
  let '(c, q) := shortest num den lo hi (Z.even (Z.pos m)) 17 k 1 in
  let point := q + Z.of_nat (String.length (dec_of_Z c)) in
  format_r (dec_of_Z (strip_zeros 20 c)) point.

(** [float.__repr__]: the shortest decimal text that reads back as the
    same float. *)
Definition repr_float (f : float) : string :=
  match f with
  | S754_zero s => if s then "-0.0" else "0.0"
  | S754_infinity s => if s then "-inf" else "inf"
  | S754_nan => "nan"
  | S754_finite s m e => (if s then "-" else "") ++ repr_finite m e
  end.

Definition str (t : number) : string :=
  match t with
  | PyInt z => dec_of_Z z
  | PyFloat f => repr_float f
  end.

(** The float nearest to [0.7], the default temperature. *)
Definition f0_7 : float := S754_finite false 6305039478318694 (-53).

End PyNum.

Example str_numbers :
  PyNum.str (PyNum.PyFloat PyNum.f0_7) = "0.7"
  /\ PyNum.str (PyNum.PyFloat (SpecFloat.S754_finite false 6305129550311242 (-53))) = "0.70001"
  /\ PyNum.str (PyNum.PyFloat (SpecFloat.S754_finite false 5404319552844596 (-54)))
     = "0.30000000000000004"
  /\ PyNum.str (PyNum.PyFloat (SpecFloat.S754_finite false 5902958103587057 (-69))) = "1e-05"
  /\ PyNum.str (PyNum.PyFloat (SpecFloat.S754_finite false 5960464477539062 24)) = "1e+23"
  /\ PyNum.str (PyNum.PyFloat (SpecFloat.S754_finite false 4503599627370496 (-51))) = "2.0"
  /\ PyNum.str (PyNum.PyFloat (SpecFloat.S754_finite true 1 (-1074))) = "-5e-324"
  /\ PyNum.str (PyNum.PyInt 1) = "1"
  /\ PyNum.str (PyNum.PyInt (-2)) = "-2".
Proof. vm_compute. repeat split; reflexivity. Qed.

(** Two shortest texts equally near: the even last digit is printed. *)
Example str_tie :
  PyNum.str (PyNum.PyFloat (SpecFloat.S754_finite false 4503599627370499 (-2)))
  = "1125899906842624.8".
Proof. vm_compute. reflexivity. Qed.

(** Code points from 128 up: the no-break space is escaped, the letter
    e-acute stands for itself and is encoded on two bytes. *)
Example repr_latin1 :
  Py.repr_str (String "a" (String (ascii_of_nat 160) "b"))
  = ("'a" ++ String Py.backslash "xa0b'")%string
  /\ Py.repr_str (String (ascii_of_nat 233) "")
     = String "'" (String (ascii_of_nat 233) "'")
  /\ encode (String "e" (String (ascii_of_nat 233) "")) = [101; 195; 169]%Z.
Proof. repeat split; reflexivity. Qed.

(** ** The fingerprint *)

(** The [messages] argument: a list of dicts such as
    [{'role': 'user', 'content': 'hi'}]. *)
Definition Messages := list Py.dict.
Definition Temperature := PyNum.number.

(** [str(messages)] is the [repr] of the list. *)
Definition hash_prompt (messages : Messages) (temperature : Temperature) : string :=
  let prompt_str := (Py.repr_list messages ++ PyNum.str temperature)%string in
  Sha256.hexdigest (encode prompt_str).

Arguments hash_prompt : simpl never.

Example hash_prompt_hi :
  hash_prompt [[("role", "user"); ("content", "hi")]] (PyNum.PyFloat PyNum.f0_7)
  = "839debe836d1d0ad1c69865fb96a91ffb7bdb5e513ea6bb1ccc7e353f318573f".
Proof. vm_compute. reflexivity. Qed.

Example hash_prompt_latin1 :
  hash_prompt
    [[("role", "user");
      ("content", ("caf" ++ String (ascii_of_nat 233) (" " ++ String (ascii_of_nat 160) "x"))%string)]]
    (PyNum.PyFloat PyNum.f0_7)
  = "9a4c057ee2bbacc21df0e1b1a6c99398f7a255947e860193cf6a9c38e04a57ff".
Proof. vm_compute. reflexivity. Qed.

(** ** The table [cache (hash TEXT PRIMARY KEY, response TEXT, timestamp REAL)] *)

Definition Timestamp := PyNum.float.

Record Row := mkRow { hash : string; response : string; timestamp : Timestamp }.

Definition Table := list Row.

Definition has_hash (h : string) (r : Row) : bool := String.eqb (hash r) h.

(** [SELECT response FROM cache WHERE hash=?] followed by [fetchone()]:
    the first matching row as the tuple [(response,)], or [None]. *)
Definition select_response (t : Table) (h : string) : option string :=
  match List.filter (has_hash h) t with
  | [] => None
  | r :: _ => Some (response r)
  end.

(** [INSERT OR REPLACE INTO cache (hash, response, timestamp) VALUES (?, ?, ?)]:
    the rows that clash with the new one on the primary key are deleted,
    then the new row is inserted. *)
Definition insert_or_replace (t : Table) (r : Row) : Table :=
  List.filter (fun old => negb (has_hash (hash r) old)) t ++ [r].

(** [put(k, v, t)] of the specification is this statement. *)
Definition put (k v : string) (ts : Timestamp) (t : Table) : Table :=
  insert_or_replace t (mkRow k v ts).

(** The connection [conn] with its cursor: [cache] is the table as the
    connection sees it, [durable] what [cache.db] holds after the last
    [conn.commit()]. *)
Record Conn := mkConn { cache : Table; durable : Table }.

(** ** Values exchanged with the caller and with the backend *)

Record Message := mkMessage { content : string }.
Record Choice := mkChoice { message : Message }.
(** [{'choices': [{'message': {'content': ...}}]}] *)
Record Response := mkResponse { choices : list Choice }.

Record Delta := mkDelta { delta_content : string }.
Record ChunkChoice := mkChunkChoice { delta : Delta }.
(** [{'choices': [{'delta': {'content': ...}}]}] *)
Record ChunkEvent := mkChunk { chunk_choices : list ChunkChoice }.

Definition response_of (text : string) : Response :=
  mkResponse [mkChoice (mkMessage text)].

Definition chunk_of (text : string) : ChunkEvent :=
  mkChunk [mkChunkChoice (mkDelta text)].

Inductive exn : Type :=
  | BackendError (what : string)
  | SqliteError (what : string)
  | IndexError
  | TypeError
  | SyntaxError (what : string) (line : nat).

(** The keyword arguments of [litellm.acompletion]. *)
Record BackendCall := mkCall {
  call_model : string;
  call_messages : Messages;
  call_temperature : Temperature;
  call_stream : bool
}.

(** What [await litellm.acompletion(...)] does: raise, hand back a full
    response, or hand back a live chunk sequence that may fail on the way. *)
Inductive BackendReply : Type :=
  | Raises (e : exn)
  | ModelResponse (r : Response)
  | StreamWrapper (chunks : list ChunkEvent) (failure : option exn).

Inductive DbOp : Type := OpSelect | OpInsert | OpCommit.

(** The surroundings of one call: the backend, the clock read by
    [time.time()], and the errors SQLite answers with. *)
Record Env := mkEnv {
  acompletion : BackendCall -> BackendReply;
  clock : nat -> Timestamp;
  db_fault : DbOp -> option exn
}.

Record World := mkWorld { conn : Conn; ticks : nat }.

Inductive LogLine : Type :=
  | CacheHit
  | CacheMiss (start_time now : Timestamp).

Inductive Event : Type :=
  | EvSelect (h : string)
  | EvBackend (c : BackendCall)
  | EvInsert (r : Row)
  | EvCommit
  | EvYield (c : ChunkEvent)
  | EvLog (l : LogLine).

(** ** The coordinator

    A computation reads the world, leaves the events it caused in order,
    and ends with a value or with the exception it raised. *)

Record Outcome (A : Type) := mkOutcome {
  events : list Event;
  final : World;
  result : exn + A
}.
Arguments mkOutcome {A} _ _ _.
Arguments events {A} _.
Arguments final {A} _.
Arguments result {A} _.

Definition M (A : Type) : Type := World -> Outcome A.

Definition ret {A} (a : A) : M A := fun w => mkOutcome [] w (inr a).

Definition raise {A} (e : exn) : M A := fun w => mkOutcome [] w (inl e).

Definition bind {A B} (m : M A) (k : A -> M B) : M B :=
  fun w =>
    match m w with
    | mkOutcome evs w1 (inl e) => mkOutcome evs w1 (inl e)
    | mkOutcome evs w1 (inr a) =>
        match k a w1 with
        | mkOutcome evs' w2 r => mkOutcome (evs ++ evs') w2 r
        end
    end.

Declare Scope proxy_scope.
Delimit Scope proxy_scope with proxy.
Notation "x <- m ;; k" := (bind m (fun x => k))
  (at level 100, m at next level, right associativity) : proxy_scope.
Notation "m ;; k" := (bind m (fun _ => k))
  (at level 100, right associativity) : proxy_scope.

Definition emit (e : Event) : M unit := fun w => mkOutcome [e] w (inr tt).

(** [yield chunk] *)
Definition yield (c : ChunkEvent) : M unit := emit (EvYield c).

(** [logging.info(...)] *)
Definition logging_info (l : LogLine) : M unit := emit (EvLog l).

(** [for x in xs: body(x)] *)
Fixpoint for_each {A} (xs : list A) (body : A -> M unit) : M unit :=
  match xs with
  | [] => ret tt
  | x :: rest => bind (body x) (fun _ => for_each rest body)
  end.

Section Coordinator.
Variable env : Env.
Local Open Scope proxy_scope.

(** [time.time()] *)
Definition time_time : M Timestamp :=
  fun w => mkOutcome [] (mkWorld (conn w) (S (ticks w))) (inr (clock env (ticks w))).

(** [cursor.execute("SELECT ...", (h,))] and [cursor.fetchone()] *)
Definition execute_select (h : string) : M (option string) :=
  fun w =>
    match db_fault env OpSelect with
    | Some e => mkOutcome [] w (inl e)
    | None => mkOutcome [EvSelect h] w (inr (select_response (cache (conn w)) h))
    end.

(** [cursor.execute("INSERT OR REPLACE ...", (h, text, ts))] *)
Definition execute_insert (h text : string) (ts : Timestamp) : M unit :=
  fun w =>
    match db_fault env OpInsert with
    | Some e => mkOutcome [] w (inl e)
    | None =>
        let r := mkRow h text ts in
        let c := conn w in
        mkOutcome [EvInsert r]
          (mkWorld (mkConn (insert_or_replace (cache c) r) (durable c)) (ticks w))
          (inr tt)
    end.

(** [conn.commit()] *)
Definition commit : M unit :=
  fun w =>
    match db_fault env OpCommit with
    | Some e => mkOutcome [] w (inl e)
    | None =>
        let c := conn w in
        mkOutcome [EvCommit] (mkWorld (mkConn (cache c) (cache c)) (ticks w)) (inr tt)
    end.

(** [await litellm.acompletion(model=..., messages=..., temperature=...,
    stream=...)]: the call is made, then it raises or hands back its
    reply. *)
Definition await_acompletion (c : BackendCall) : M BackendReply :=
  fun w =>
    match acompletion env c with
    | Raises e => mkOutcome [EvBackend c] w (inl e)
    | reply => mkOutcome [EvBackend c] w (inr reply)
    end.

(** [async for chunk in response: yield chunk]; a full response is not
    an asynchronous iterable. *)
Definition forward_chunks (response : BackendReply) : M unit :=
  match response with
  | StreamWrapper chunks failure =>
      for_each chunks (fun chunk => yield chunk) ;;
      match failure with
      | Some e => raise e
      | None => ret tt
      end
  | _ => raise TypeError
  end.

(** [response['choices'][0]['message']['content']]; a chunk sequence
    cannot be subscripted, and an empty [choices] has no item 0. *)
Definition content_of (response : BackendReply) : M string :=
  match response with
  | ModelResponse r =>
      match choices r with
      | c :: _ => ret (content (message c))
      | [] => raise IndexError
      end
  | _ => raise TypeError
  end.

(** *** The body of [cached_completion], block by block

    The blocks below are the statements of the body as they are written,
    cut where the body suspends: at [await] (l.43) other calls run
    before the reply comes, so what follows the reply is stated from the
    world it finds, not from the world of the lookup.  The value of a
    block is what its [return] hands back, [None] when it runs off its
    end; the chunks it yields are the [EvYield] events. *)

(** l.27-29: the key, the SELECT and [fetchone()]. *)
Definition lookup (messages : Messages) (temperature : Temperature)
    : M (string * option string) :=
  let cache_hash := hash_prompt messages temperature in
  cached <- execute_select cache_hash ;;
  ret (cache_hash, cached).

(** l.32-39: the branch [if cached:], with [full_resp = cached[0]]. *)
Definition hit_branch (full_resp : string) (stream : bool) : M (option Response) :=
  logging_info CacheHit ;;
  if stream then
    for_each (Py.split_space full_resp)
      (fun chunk => yield (chunk_of (chunk ++ " "))) ;;
    ret None
  else
    ret (Some (response_of full_resp)).

(** l.41-48: the clock is read and the backend is called; the body
    suspends until the reply. *)
Definition miss_call (messages : Messages) (temperature : Temperature)
    (stream : bool) : M (Timestamp * BackendReply) :=
  start_time <- time_time ;;
  response <- await_acompletion
                (mkCall "ollama/llama3.2:1b" messages temperature stream) ;;
  ret (start_time, response).

(** l.49-58: what is done with the reply. *)
Definition miss_finish (cache_hash : string) (start_time : Timestamp)
    (response : BackendReply) (stream : bool) : M (option Response) :=
  if stream then
    forward_chunks response ;;
    ret None
  else
    content <- content_of response ;;
    now <- time_time ;;
    execute_insert cache_hash content now ;;
    commit ;;
    now' <- time_time ;;
    logging_info (CacheMiss start_time now') ;;
    ret (Some (response_of content)).

(** The blocks in their order, when nothing else runs in between. *)
Definition body (messages : Messages) (model : string)
    (temperature : Temperature) (stream : bool) : M (option Response) :=
  found <- lookup messages temperature ;;
  match snd found with
  | Some full_resp => hit_branch full_resp stream
  | None =>
      reply <- miss_call messages temperature stream ;;
      miss_finish (fst found) (fst reply) (snd reply) stream
  end.

End Coordinator.

(** ** The definition as Python compiles it

    Python compiles [lite_proxy.py] as a whole before it runs its first
    statement.  In an [async def], a [yield] makes the function an
    asynchronous generator, and a [return] with a value in an asynchronous
    generator is a syntax error.  The statements of [cached_completion]
    are kept here with their lines and with what matters to that rule. *)

Local Unset Elimination Schemes.

Inductive stmt : Type :=
  | Simple (line : nat)
  | YieldStmt (line : nat)
  | Return (line : nat) (with_value : bool)
  | If (line : nat) (body orelse : list stmt)
  | For (line : nat) (body : list stmt)
  | AsyncFor (line : nat) (body : list stmt).

Local Set Elimination Schemes.

Fixpoint has_yield (s : stmt) : bool :=
  match s with
  | Simple _ | Return _ _ => false
  | YieldStmt _ => true
  | If _ b e => List.existsb has_yield b || List.existsb has_yield e
  | For _ b | AsyncFor _ b => List.existsb has_yield b
  end.

(** The lines of the [return] statements that carry a value, in the
    order of the text. *)
Fixpoint value_returns (s : stmt) : list nat :=
  match s with
  | Simple _ | YieldStmt _ => []
  | Return l v => if v then [l] else []
  | If _ b e => List.flat_map value_returns b ++ List.flat_map value_returns e
  | For _ b | AsyncFor _ b => List.flat_map value_returns b
  end.

(** Compiling the body of an [async def]: the first [return] with a
    value is refused when the body yields. *)
Definition compile_async_def (stmts : list stmt) : option exn :=
  if List.existsb has_yield stmts then
    match List.flat_map value_returns stmts with
    | l :: _ => Some (SyntaxError "'return' with value in async generator" l)
    | [] => None
    end
  else None.

(** [async def cached_completion(messages, model, temperature=0.7,
    stream=False)], l.25-58. *)
Definition cached_completion_def : list stmt :=
  [ Simple 27; Simple 28; Simple 29;
    If 31
      [ Simple 32;
        If 33
          [ Simple 35; For 36 [ YieldStmt 37 ] ]
          [ Return 39 true ] ]
      [ Simple 41; Simple 43;
        If 49
          [ AsyncFor 50 [ YieldStmt 51 ] ]
          [ Simple 53; Simple 54; Simple 56; Simple 57; Return 58 true ] ] ].

(** What a caller gets from [cached_completion]: the error of the
    compiler when the definition is refused, and the body otherwise. *)
Definition cached_completion (env : Env) (messages : Messages) (model : string)
    (temperature : Temperature) (stream : bool) : M (option Response) :=
  match compile_async_def cached_completion_def with
  | Some e => raise e
  | None => body env messages model temperature stream
  end.

(** [temperature=0.7] *)
Definition default_temperature : Temperature := PyNum.PyFloat PyNum.f0_7.

(** A completion request as the gateway hands it over. *)
Record CompletionRequest := mkRequest {
  req_messages : Messages;
  req_model : string;
  req_temperature : Temperature;
  req_stream : bool
}.

(** The key a request is looked up and stored under (l.27). *)
Definition cache_key (req : CompletionRequest) : string :=
  hash_prompt (req_messages req) (req_temperature req).

(** *** What an observer reads off the events *)

Definition store_writes (evs : list Event) : list Row :=
  List.flat_map (fun e => match e with EvInsert r => [r] | _ => [] end) evs.

Definition backend_calls (evs : list Event) : list BackendCall :=
  List.flat_map (fun e => match e with EvBackend c => [c] | _ => [] end) evs.

Definition yielded (evs : list Event) : list ChunkEvent :=
  List.flat_map (fun e => match e with EvYield c => [c] | _ => [] end) evs.

(** The delta texts of a chunk sequence, as a caller reads them. *)
Definition deltas (cs : list ChunkEvent) : list string :=
  List.flat_map (fun c => List.map (fun ch => delta_content (delta ch)) (chunk_choices c)) cs.

Definition concat_text (parts : list string) : string :=
  List.fold_right String.append EmptyString parts.

(** A chunk without its trailing delimiter space. *)
Fixpoint strip_delimiter (s : string) : string :=
  match s with
  | EmptyString => EmptyString
  | String c EmptyString => if Ascii.eqb c Py.space then EmptyString else s
  | String c rest => String c (strip_delimiter rest)
  end.

(** The chunks the loop at l.36-37 is written to yield for a cached text,
    in their order. *)
Definition replay_chunks (full_resp : string) : list ChunkEvent :=
  List.map (fun chunk => chunk_of (chunk ++ " ")) (Py.split_space full_resp).

(** * Properties *)

(** ** Text lemmas *)

Lemma append_empty_r (s : string) : (s ++ "")%string = s.
Proof. induction s as [|c s IH]; simpl; [reflexivity | now rewrite IH]. Qed.

Lemma append_assoc (a b c : string) : ((a ++ b) ++ c)%string = (a ++ (b ++ c))%string.
Proof. induction a as [|x a IH]; simpl; [reflexivity | now rewrite IH]. Qed.

Lemma append_inj_l (p a b : string) : (p ++ a)%string = (p ++ b)%string -> a = b.
Proof.
  induction p as [|x p IH]; simpl; intros H; [exact H|].
  injection H as H. now apply IH.
Qed.

Lemma split_space_not_nil (s : string) : Py.split_space s <> [].
Proof.
  induction s as [|c s IH]; simpl; [discriminate|].
  destruct (Ascii.eqb c Py.space); [discriminate|].
  destruct (Py.split_space s); discriminate.
Qed.

(** Joining the fragments of [s.split(' ')] with single spaces gives [s]
    back. *)
Lemma join_split_space (s : string) : Py.join " " (Py.split_space s) = s.
Proof.
  induction s as [|c s IH]; [reflexivity|].
  simpl Py.split_space.
  destruct (Ascii.eqb_spec c Py.space) as [->|Hc].
  - pose proof (split_space_not_nil s) as Hne.
    destruct (Py.split_space s) as [|w ws] eqn:E; [congruence|].
    change (Py.join " " ("" :: w :: ws)) with (" " ++ Py.join " " (w :: ws))%string.
    now rewrite IH.
  - pose proof (split_space_not_nil s) as Hne.
    destruct (Py.split_space s) as [|w ws] eqn:E; [congruence|].
    destruct ws as [|w' ws].
    + simpl in *. now rewrite IH.
    + change (Py.join " " (String c w :: w' :: ws))
        with (String c (w ++ " " ++ Py.join " " (w' :: ws)))%string.
      change (Py.join " " (w :: w' :: ws))
        with (w ++ " " ++ Py.join " " (w' :: ws))%string in IH.
      now rewrite IH.
Qed.

(** Each fragment followed by a space, all concatenated: the joined text
    followed by one space. *)
Lemma concat_spaced (parts : list string) :
  parts <> [] ->
  concat_text (List.map (fun chunk => chunk ++ " ")%string parts)
  = (Py.join " " parts ++ " ")%string.
Proof.
  induction parts as [|p rest IH]; [congruence|]. intros _.
  destruct rest as [|p' rest].
  - simpl. now rewrite append_empty_r.
  - change (Py.join " " (p :: p' :: rest))
      with (p ++ " " ++ Py.join " " (p' :: rest))%string.
    simpl List.map. simpl concat_text.
    simpl List.map in IH. simpl concat_text in IH.
    rewrite IH by discriminate.
    now rewrite !append_assoc.
Qed.

Lemma strip_delimiter_spaced (w : string) : strip_delimiter (w ++ " ") = w.
Proof.
  induction w as [|c w IH]; [reflexivity|].
  simpl. rewrite IH.
  destruct (w ++ " ")%string eqn:E; [|reflexivity].
  destruct w; discriminate.
Qed.

Lemma map_strip_spaced (parts : list string) :
  List.map strip_delimiter (List.map (fun chunk => chunk ++ " ")%string parts) = parts.
Proof.
  induction parts as [|p rest IH]; simpl; [reflexivity|].
  now rewrite strip_delimiter_spaced, IH.
Qed.

Lemma deltas_chunk_of (texts : list string) :
  deltas (List.map chunk_of texts) = texts.
Proof. induction texts as [|t rest IH]; simpl; [reflexivity | now rewrite IH]. Qed.

(** ** The table *)

Lemma has_hash_refl (r : Row) : has_hash (hash r) r = true.
Proof. unfold has_hash. apply String.eqb_refl. Qed.

Lemma filter_has_hash_insert (t : Table) (r : Row) :
  List.filter (has_hash (hash r)) (insert_or_replace t r) = [r].
Proof.
  unfold insert_or_replace. rewrite List.filter_app. simpl.
  rewrite has_hash_refl.
  replace (List.filter (has_hash (hash r))
             (List.filter (fun old => negb (has_hash (hash r) old)) t))
    with (@nil Row); [reflexivity|].
  induction t as [|x t IH]; simpl; [reflexivity|].
  destruct (has_hash (hash r) x) eqn:E; simpl; [exact IH|].
  now rewrite E.
Qed.

(** Rows under other keys are left alone, in their order. *)
Lemma filter_other_insert (t : Table) (r : Row) (h : string) :
  h <> hash r ->
  List.filter (has_hash h) (insert_or_replace t r) = List.filter (has_hash h) t.
Proof.
  intros Hne. unfold insert_or_replace. rewrite List.filter_app. simpl.
  replace (has_hash h r) with false.
  2:{ symmetry. unfold has_hash. apply String.eqb_neq. congruence. }
  rewrite List.app_nil_r.
  induction t as [|x t IH]; simpl; [reflexivity|].
  destruct (has_hash (hash r) x) eqn:E; simpl.
  - replace (has_hash h x) with false; [exact IH|].
    symmetry. unfold has_hash in *. apply String.eqb_eq in E.
    apply String.eqb_neq. congruence.
  - destruct (has_hash h x); [now rewrite IH | exact IH].
Qed.

Lemma select_after_insert (t : Table) (r : Row) :
  select_response (insert_or_replace t r) (hash r) = Some (response r).
Proof. unfold select_response. now rewrite filter_has_hash_insert. Qed.

(** The primary key holds: no two rows of the table share a hash. *)
Definition unique_keys (t : Table) : Prop := List.NoDup (List.map hash t).

Lemma in_map_hash_filter (f : Row -> bool) (t : Table) (h : string) :
  List.In h (List.map hash (List.filter f t)) -> List.In h (List.map hash t).
Proof.
  induction t as [|x t IH]; simpl; [tauto|].
  destruct (f x); simpl; intuition.
Qed.

Lemma unique_keys_filter (f : Row -> bool) (t : Table) :
  unique_keys t -> unique_keys (List.filter f t).
Proof.
  unfold unique_keys. induction t as [|x t IH]; simpl; intros H; [exact H|].
  inversion H as [|? ? Hnin Hnd]; subst.
  destruct (f x); simpl; [|now apply IH].
  constructor; [|now apply IH].
  intros Hin. apply Hnin. eapply in_map_hash_filter; eassumption.
Qed.

Lemma unique_keys_insert (t : Table) (r : Row) :
  unique_keys t -> unique_keys (insert_or_replace t r).
Proof.
  intros H. unfold insert_or_replace, unique_keys.
  rewrite List.map_app. simpl.
  apply List.NoDup_app; [now apply unique_keys_filter| repeat constructor; simpl; tauto |].
  intros h Hin [<-|[]].
  apply List.in_map_iff in Hin as (x & Hx & Hin).
  apply List.filter_In in Hin as [_ Hf].
  unfold has_hash in Hf. rewrite Hx, String.eqb_refl in Hf. discriminate.
Qed.

(** A key is present exactly when the lookup finds a row. *)
Lemma select_response_None (t : Table) (h : string) :
  select_response t h = None <-> ~ List.In h (List.map hash t).
Proof.
  unfold select_response. induction t as [|x t IH]; simpl; [tauto|].
  unfold has_hash at 1. destruct (String.eqb_spec (hash x) h) as [E|E].
  - split; [discriminate | intros H; exfalso; apply H; now left].
  - rewrite IH. tauto.
Qed.

(** ** Events of a loop that yields *)

Lemma for_each_yield {A} (f : A -> ChunkEvent) (xs : list A) (w : World) :
  for_each xs (fun x => yield (f x)) w
  = mkOutcome (List.map (fun x => EvYield (f x)) xs) w (inr tt).
Proof.
  induction xs as [|x rest IH]; [reflexivity|].
  simpl for_each. unfold bind. simpl. now rewrite IH.
Qed.

Lemma yielded_map_yield {A} (f : A -> ChunkEvent) (xs : list A) :
  yielded (List.map (fun x => EvYield (f x)) xs) = List.map f xs.
Proof. induction xs as [|x rest IH]; simpl; [reflexivity | now rewrite IH]. Qed.

Lemma store_writes_map_yield {A} (f : A -> ChunkEvent) (xs : list A) :
  store_writes (List.map (fun x => EvYield (f x)) xs) = [].
Proof. induction xs as [|x rest IH]; simpl; [reflexivity | exact IH]. Qed.

Lemma backend_calls_map_yield {A} (f : A -> ChunkEvent) (xs : list A) :
  backend_calls (List.map (fun x => EvYield (f x)) xs) = [].
Proof. induction xs as [|x rest IH]; simpl; [reflexivity | exact IH]. Qed.

Lemma store_writes_app (a b : list Event) :
  store_writes (a ++ b) = store_writes a ++ store_writes b.
Proof. apply List.flat_map_app. Qed.

Lemma backend_calls_app (a b : list Event) :
  backend_calls (a ++ b) = backend_calls a ++ backend_calls b.
Proof. apply List.flat_map_app. Qed.

Lemma yielded_app (a b : list Event) :
  yielded (a ++ b) = yielded a ++ yielded b.
Proof. apply List.flat_map_app. Qed.

(** The INSERT OR REPLACE of the coordinator is the [put] of the table. *)
Lemma execute_insert_puts (env : Env) (w : World) (k v : string) (ts : Timestamp) :
  db_fault env OpInsert = None ->
  cache (conn (final (execute_insert env k v ts w))) = put k v ts (cache (conn w))
  /\ store_writes (events (execute_insert env k v ts w)) = [mkRow k v ts].
Proof. intros Hi. unfold execute_insert. rewrite Hi. split; reflexivity. Qed.

Lemma yielded_forward (chunks : list ChunkEvent) :
  yielded (List.map EvYield chunks) = chunks.
Proof. rewrite (yielded_map_yield (fun c => c)). apply List.map_id. Qed.

Lemma store_writes_forward (chunks : list ChunkEvent) :
  store_writes (List.map EvYield chunks) = [].
Proof. apply (store_writes_map_yield (fun c => c)). Qed.

Lemma backend_calls_forward (chunks : list ChunkEvent) :
  backend_calls (List.map EvYield chunks) = [].
Proof. apply (backend_calls_map_yield (fun c => c)). Qed.

(** *** The hit branch *)

Lemma hit_branch_plain (text : string) (w : World) :
  hit_branch text false w
  = mkOutcome [EvLog CacheHit] w (inr (Some (response_of text))).
Proof. reflexivity. Qed.

Lemma hit_branch_stream (text : string) (w : World) :
  hit_branch text true w
  = mkOutcome (EvLog CacheHit :: List.map EvYield (replay_chunks text)) w (inr None).
Proof.
  unfold hit_branch, bind, logging_info, emit, ret. cbn [List.app].
  rewrite for_each_yield. unfold replay_chunks.
  rewrite List.map_map, List.app_nil_r. reflexivity.
Qed.

(** *** The miss branch *)

Lemma miss_call_raises (env : Env) (messages : Messages) (temperature : Temperature)
    (stream : bool) (w : World) (e : exn) :
  acompletion env (mkCall "ollama/llama3.2:1b" messages temperature stream) = Raises e ->
  miss_call env messages temperature stream w
  = mkOutcome [EvBackend (mkCall "ollama/llama3.2:1b" messages temperature stream)]
      (mkWorld (conn w) (S (ticks w))) (inl e).
Proof.
  intros Hb. unfold miss_call, bind, time_time, await_acompletion. now rewrite Hb.
Qed.

Lemma miss_finish_stream (env : Env) (cache_hash : string) (start_time : Timestamp)
    (chunks : list ChunkEvent) (failure : option exn) (w : World) :
  miss_finish env cache_hash start_time (StreamWrapper chunks failure) true w
  = mkOutcome (List.map EvYield chunks) w
      (match failure with Some e => inl e | None => inr None end).
Proof.
  unfold miss_finish, forward_chunks, bind.
  rewrite (for_each_yield (fun c => c)).
  destruct failure; cbn; now rewrite ?List.app_nil_r.
Qed.

Section Plain.
Variables (env : Env) (cache_hash : string) (start_time : Timestamp).
Variables (c : Choice) (rest : list Choice) (w : World).

Let row := mkRow cache_hash (content (message c)) (clock env (ticks w)).

Lemma miss_finish_plain :
  db_fault env OpInsert = None ->
  db_fault env OpCommit = None ->
  miss_finish env cache_hash start_time (ModelResponse (mkResponse (c :: rest))) false w
  = mkOutcome
      [EvInsert row; EvCommit; EvLog (CacheMiss start_time (clock env (S (ticks w))))]
      (mkWorld (mkConn (insert_or_replace (cache (conn w)) row)
                       (insert_or_replace (cache (conn w)) row))
               (S (S (ticks w))))
      (inr (Some (response_of (content (message c))))).
Proof.
  intros Hi Hc.
  unfold miss_finish, content_of, bind, ret, time_time, execute_insert, commit,
    logging_info, emit.
  cbn. rewrite Hi. cbn. rewrite Hc. reflexivity.
Qed.

Lemma miss_finish_insert_fault (e : exn) :
  db_fault env OpInsert = Some e ->
  miss_finish env cache_hash start_time (ModelResponse (mkResponse (c :: rest))) false w
  = mkOutcome [] (mkWorld (conn w) (S (ticks w))) (inl e).
Proof.
  intros Hi.
  unfold miss_finish, content_of, bind, ret, time_time, execute_insert.
  cbn. rewrite Hi. reflexivity.
Qed.

Lemma miss_finish_commit_fault (e : exn) :
  db_fault env OpInsert = None ->
  db_fault env OpCommit = Some e ->
  miss_finish env cache_hash start_time (ModelResponse (mkResponse (c :: rest))) false w
  = mkOutcome [EvInsert row]
      (mkWorld (mkConn (insert_or_replace (cache (conn w)) row) (durable (conn w)))
               (S (ticks w)))
      (inl e).
Proof.
  intros Hi Hc.
  unfold miss_finish, content_of, bind, ret, time_time, execute_insert, commit.
  cbn. rewrite Hi. cbn. rewrite Hc. reflexivity.
Qed.
End Plain.

(** ** The worked example of the specification

    [messages = [{"role": "user", "content": "hi"}]], temperature 0.7; the
    backend answers "hello there". *)

Module Scenario.
Import SpecFloat.

Definition hi : Messages := [[("role", "user"); ("content", "hi")]].

(** The clock reads 1.0, 2.0, 3.0, ... *)
Definition seconds (n : nat) : Timestamp :=
  S754_finite false (Pos.of_succ_nat n) 0.

Definition live_chunks : list ChunkEvent := [chunk_of "hello"; chunk_of " there"].

Definition backend_up (c : BackendCall) : BackendReply :=
  if call_stream c then StreamWrapper live_chunks None
  else ModelResponse (response_of "hello there").


Definition no_fault (op : DbOp) : option exn := None.

Definition disk_full (op : DbOp) : option exn :=
  match op with
  | OpInsert => Some (SqliteError "database or disk is full")
  | _ => None
  end.

Definition healthy : Env := mkEnv backend_up seconds no_fault.
Definition full_disk : Env := mkEnv backend_up seconds disk_full.

(** An empty cache, and the cache after "hello there" was stored. *)
Definition cold : World := mkWorld (mkConn [] []) 0.



Definition request (model : string) (stream : bool) : CompletionRequest :=
  mkRequest hi model default_temperature stream.
End Scenario.

(** ** The module does not load *)

Lemma cached_completion_def_refused :
  compile_async_def cached_completion_def
  = Some (SyntaxError "'return' with value in async generator" 39).
Proof. reflexivity. Qed.

(** Whatever the request and the surroundings, the caller gets the
    error of the compiler; nothing is looked up, asked of the backend,
    written or yielded. *)
Lemma cached_completion_refused (env : Env) (messages : Messages) (model : string)
    (temperature : Temperature) (stream : bool) (w : World) :
  cached_completion env messages model temperature stream w
  = mkOutcome [] w (inl (SyntaxError "'return' with value in async generator" 39)).
Proof. reflexivity. Qed.

(** ** Fingerprint *)

(** C7. Two requests with the same messages and the same temperature get
    the same cache key, whatever their streaming flags and model
    identifiers. *)
Theorem key_ignores_stream_and_model (r1 r2 : CompletionRequest) :
  req_messages r1 = req_messages r2 ->
  req_temperature r1 = req_temperature r2 ->
  cache_key r1 = cache_key r2.
Proof. intros Hm Ht. unfold cache_key. now rewrite Hm, Ht. Qed.

Lemma key_ignores_stream_and_model_witness :
  req_messages (Scenario.request "gemini-2.5-flash" true)
  = req_messages (Scenario.request "ollama/phi3:mini" false)
  /\ req_temperature (Scenario.request "gemini-2.5-flash" true)
     = req_temperature (Scenario.request "ollama/phi3:mini" false)
  /\ cache_key (Scenario.request "gemini-2.5-flash" true)
     = cache_key (Scenario.request "ollama/phi3:mini" false).
Proof.
  split; [reflexivity|]. split; [reflexivity|].
  apply (key_ignores_stream_and_model
           (Scenario.request "gemini-2.5-flash" true)
           (Scenario.request "ollama/phi3:mini" false)); reflexivity.
Defined.

(** Distinct temperature texts give distinct hashed texts; whether the
    digests differ as well is a matter of SHA-256. *)
Lemma prompt_text_sensitive (messages : Messages) (t1 t2 : Temperature) :
  PyNum.str t1 <> PyNum.str t2 ->
  (Py.repr_list messages ++ PyNum.str t1)%string
  <> (Py.repr_list messages ++ PyNum.str t2)%string.
Proof. intros Hne Heq. apply Hne. eapply append_inj_l. exact Heq. Qed.

(** ** Store *)

(** C9. After [put(k, v, t1); put(k, v, t2)] the table holds exactly one
    row for [k], with value [v] and timestamp [t2], whatever it held
    before. *)
Theorem put_twice_keeps_one_entry (k v : string) (t1 t2 : Timestamp) (t : Table) :
  List.filter (has_hash k) (put k v t2 (put k v t1 t)) = [mkRow k v t2].
Proof. unfold put. apply (filter_has_hash_insert _ (mkRow k v t2)). Qed.

(** ** Cache hits *)

(** As written, the hit branch calls no backend and writes nothing: it
    hands back the stored text, or yields its replay. *)
Lemma hit_branch_as_written (text : string) (stream : bool) (w : World) :
  let o := hit_branch text stream w in
  backend_calls (events o) = []
  /\ store_writes (events o) = []
  /\ final o = w
  /\ if stream
     then result o = inr None /\ yielded (events o) = replay_chunks text
     else result o = inr (Some (response_of text)) /\ yielded (events o) = [].
Proof.
  destruct stream; cbv zeta.
  - rewrite hit_branch_stream. cbn [events final result].
    cbn [backend_calls store_writes yielded List.flat_map List.app].
    fold (backend_calls (List.map EvYield (replay_chunks text))).
    fold (store_writes (List.map EvYield (replay_chunks text))).
    fold (yielded (List.map EvYield (replay_chunks text))).
    rewrite backend_calls_forward, store_writes_forward, yielded_forward.
    repeat split; reflexivity.
  - rewrite hit_branch_plain. repeat split; reflexivity.
Qed.


(** ** Streaming replay *)

Lemma replay_chunks_empty : replay_chunks "" = [chunk_of " "].
Proof. reflexivity. Qed.


(** The property C5 as the specification words it: strip the trailing
    delimiter space from every replayed chunk, concatenate, and read the
    cached text. *)
Definition stream_equivalence (text : string) : Prop :=
  concat_text (List.map strip_delimiter (deltas (replay_chunks text))) = text.

(** C5 fails on the example of the specification: the stripped chunks of
    "hello there" concatenate to "hellothere". *)
Lemma stream_equivalence_fails : ~ stream_equivalence "hello there".
Proof. unfold stream_equivalence. vm_compute. discriminate. Qed.

(** C5, amended. The deltas of the chunks the replay loop is written to
    yield concatenate to the cached text followed by one space; and the
    chunks stripped of their trailing delimiter space, joined with single
    spaces, give the cached text. *)
Theorem replay_reads_back (text : string) :
  concat_text (deltas (replay_chunks text)) = (text ++ " ")%string
  /\ Py.join " " (List.map strip_delimiter (deltas (replay_chunks text))) = text.
Proof.
  unfold replay_chunks.
  rewrite <- (List.map_map (fun chunk => chunk ++ " ")%string chunk_of).
  rewrite deltas_chunk_of. split.
  - rewrite concat_spaced by apply split_space_not_nil.
    now rewrite join_split_space.
  - rewrite map_strip_spaced. apply join_split_space.
Qed.

(** ** Cache misses *)

(** The property C2 as the specification words it: the backend call
    carries the request of the caller, model identifier included. *)
Definition passes_request_through (env : Env) (w : World) (req : CompletionRequest) : Prop :=
  backend_calls
    (events (miss_call env (req_messages req) (req_temperature req) (req_stream req) w))
  = [mkCall (req_model req) (req_messages req) (req_temperature req) (req_stream req)].

(** C2 fails for the alias the proxy serves: the call written at l.43-48
    for a request naming "gemini-2.5-flash" names "ollama/llama3.2:1b". *)
Lemma passes_request_through_fails :
  ~ passes_request_through Scenario.healthy Scenario.cold
      (Scenario.request "gemini-2.5-flash" false).
Proof. unfold passes_request_through. vm_compute. discriminate. Qed.

(** C2, amended. The miss branch is written to call the backend once,
    with the messages, the temperature and the streaming flag of the
    caller, and with the model "ollama/llama3.2:1b" whatever model the
    caller named: the parameter [model] does not occur in the call. *)
Theorem miss_calls_ollama (env : Env) (w : World) (messages : Messages)
    (temperature : Temperature) (stream : bool) :
  backend_calls (events (miss_call env messages temperature stream w))
  = [mkCall "ollama/llama3.2:1b" messages temperature stream].
Proof.
  unfold miss_call, bind, time_time, await_acompletion, ret.
  destruct (acompletion env _); reflexivity.
Qed.

(** As written, a backend call that raises leaves the miss branch at
    l.43: the exception goes up as it is, before any statement that
    writes. *)
Lemma miss_call_raises_as_written (env : Env) (messages : Messages)
    (temperature : Temperature) (stream : bool) (w : World) (e : exn) :
  acompletion env (mkCall "ollama/llama3.2:1b" messages temperature stream) = Raises e ->
  let o := miss_call env messages temperature stream w in
  result o = inl e /\ store_writes (events o) = [] /\ conn (final o) = conn w.
Proof.
  intros Hb. cbv zeta. rewrite (miss_call_raises env _ _ _ w e Hb).
  repeat split; reflexivity.
Qed.


(** The backend call succeeds: a full response with a first choice for a
    plain call, a chunk sequence that runs to its end for a streaming
    call. *)
Definition backend_succeeds (reply : BackendReply) (stream : bool) : Prop :=
  match reply with
  | ModelResponse r => stream = false /\ choices r <> []
  | StreamWrapper _ None => stream = true
  | _ => False
  end.

(** The text the caller receives: the content of the response handed
    back, or the deltas of the chunks yielded, concatenated. *)
Definition text_delivered (o : Outcome (option Response)) : string :=
  match result o with
  | inr (Some r) => concat_text (List.map (fun c => content (message c)) (choices r))
  | _ => concat_text (deltas (yielded (events o)))
  end.

(** The property C1 as the specification words it, streaming included:
    what follows a reply that succeeded writes one row, holding the text
    the caller receives. *)
Definition miss_persists_once (env : Env) (cache_hash : string) (start_time : Timestamp)
    (reply : BackendReply) (stream : bool) (w : World) : Prop :=
  backend_succeeds reply stream ->
  let o := miss_finish env cache_hash start_time reply stream w in
  exists row, store_writes (events o) = [row] /\ response row = text_delivered o.

(** C1 fails for a streaming miss: l.50-51 hand the live chunks on and
    write no row. *)
Lemma miss_persists_once_fails_streaming :
  ~ miss_persists_once Scenario.healthy (hash_prompt Scenario.hi default_temperature)
      (Scenario.seconds 0) (StreamWrapper Scenario.live_chunks None) true Scenario.cold.
Proof.
  intros H. destruct (H eq_refl) as (row & Hw & _).
  rewrite miss_finish_stream in Hw. cbn [events] in Hw.
  rewrite store_writes_forward in Hw. discriminate Hw.
Qed.

(** C1, amended. What the miss branch is written to do with a reply that
    succeeded, from whatever world the reply finds.  With streaming
    (l.50-51): the live chunks are handed on as they are and no row is
    written.  Without streaming (l.53-58), when the table takes the
    write: exactly one row is written, under the key computed at l.27,
    its text is the text handed back to the caller, the row is committed
    and the next lookup of that key finds it. *)
Theorem miss_persists_by_branch (env : Env) (cache_hash : string)
    (start_time : Timestamp) (reply : BackendReply) (stream : bool) (w : World) :
  backend_succeeds reply stream ->
  let o := miss_finish env cache_hash start_time reply stream w in
  if stream then
    store_writes (events o) = []
    /\ conn (final o) = conn w
    /\ result o = inr None
    /\ reply = StreamWrapper (yielded (events o)) None
  else
    db_fault env OpInsert = None ->
    db_fault env OpCommit = None ->
    exists text,
      store_writes (events o) = [mkRow cache_hash text (clock env (ticks w))]
      /\ result o = inr (Some (response_of text))
      /\ text_delivered o = text
      /\ select_response (cache (conn (final o))) cache_hash = Some text
      /\ durable (conn (final o)) = cache (conn (final o)).
Proof.
  intros Hok. cbv zeta.
  destruct reply as [e|[[|c rest]]|chunks [e|]]; simpl in Hok;
    try contradiction; try (destruct Hok; congruence).
  - destruct Hok as [-> _]. intros Hi Hc.
    exists (content (message c)).
    rewrite (miss_finish_plain env cache_hash start_time c rest w Hi Hc).
    cbn [events final result conn cache durable].
    repeat split.
    + unfold text_delivered. cbn. apply append_empty_r.
    + apply (select_after_insert (cache (conn w))
               (mkRow cache_hash (content (message c)) (clock env (ticks w)))).
  - subst stream. rewrite miss_finish_stream.
    cbn [events final result].
    rewrite store_writes_forward, yielded_forward.
    repeat split; reflexivity.
Qed.

Lemma miss_persists_by_branch_witness :
  backend_succeeds (ModelResponse (response_of "hello there")) false
  /\ db_fault Scenario.healthy OpInsert = None
  /\ db_fault Scenario.healthy OpCommit = None
  /\ exists text,
       store_writes
         (events (miss_finish Scenario.healthy
                    (hash_prompt Scenario.hi default_temperature) (Scenario.seconds 0)
                    (ModelResponse (response_of "hello there")) false
                    (mkWorld (conn Scenario.cold) 1)))
       = [mkRow (hash_prompt Scenario.hi default_temperature) text (Scenario.seconds 1)].
Proof.
  assert (H1 : backend_succeeds (ModelResponse (response_of "hello there")) false)
    by (split; [reflexivity | discriminate]).
  assert (H2 : db_fault Scenario.healthy OpInsert = None) by reflexivity.
  assert (H3 : db_fault Scenario.healthy OpCommit = None) by reflexivity.
  repeat (split; [assumption|]).
  destruct (miss_persists_by_branch Scenario.healthy
              (hash_prompt Scenario.hi default_temperature) (Scenario.seconds 0)
              (ModelResponse (response_of "hello there")) false
              (mkWorld (conn Scenario.cold) 1) H1 H2 H3)
    as (text & Hw & _).
  exists text. exact Hw.
Defined.

(** ** Store failures *)

Definition store_write_fails (env : Env) : Prop :=
  db_fault env OpInsert <> None \/ db_fault env OpCommit <> None.

(** The property C4 as the specification words it: the write fails, the
    request completes all the same with the response just computed. *)
Definition write_failure_non_fatal (env : Env) (cache_hash : string)
    (start_time : Timestamp) (c : Choice) (rest : list Choice) (w : World) : Prop :=
  store_write_fails env ->
  result (miss_finish env cache_hash start_time
            (ModelResponse (mkResponse (c :: rest))) false w)
  = inr (Some (response_of (content (message c)))).

(** C4 fails when the insert raises: l.54 lets the SQLite error up, and
    l.58, which hands "hello there" back, is not reached. *)
Lemma write_failure_non_fatal_fails :
  ~ write_failure_non_fatal Scenario.full_disk
      (hash_prompt Scenario.hi default_temperature) (Scenario.seconds 0)
      (mkChoice (mkMessage "hello there")) [] Scenario.cold.
Proof.
  intros H.
  assert (Hf : store_write_fails Scenario.full_disk) by (left; discriminate).
  specialize (H Hf).
  rewrite (miss_finish_insert_fault Scenario.full_disk _ _ _ _ _
             (SqliteError "database or disk is full") eq_refl) in H.
  discriminate H.
Qed.

(** C4, amended. As l.53-58 are written, with no [try] around them: when
    the insert or the commit raises after the backend has answered, the
    SQLite error goes up in place of the response, nothing is yielded,
    and the committed table is as it was. *)
Theorem write_failure_is_raised (env : Env) (cache_hash : string)
    (start_time : Timestamp) (c : Choice) (rest : list Choice) (w : World) :
  store_write_fails env ->
  let o := miss_finish env cache_hash start_time
             (ModelResponse (mkResponse (c :: rest))) false w in
  exists e,
    result o = inl e
    /\ (db_fault env OpInsert = Some e
        \/ db_fault env OpInsert = None /\ db_fault env OpCommit = Some e)
    /\ yielded (events o) = []
    /\ durable (conn (final o)) = durable (conn w).
Proof.
  intros Hfail. cbv zeta.
  destruct (db_fault env OpInsert) as [e|] eqn:Hi.
  - exists e. rewrite (miss_finish_insert_fault env _ _ c rest w e Hi).
    repeat split; auto.
  - destruct (db_fault env OpCommit) as [e|] eqn:Hc.
    + exists e. rewrite (miss_finish_commit_fault env _ _ c rest w e Hi Hc).
      repeat split; auto.
    + destruct Hfail as [Hf|Hf]; congruence.
Qed.

Lemma write_failure_is_raised_witness :
  store_write_fails Scenario.full_disk
  /\ exists e,
       result (miss_finish Scenario.full_disk
                 (hash_prompt Scenario.hi default_temperature) (Scenario.seconds 0)
                 (ModelResponse (mkResponse [mkChoice (mkMessage "hello there")])) false
                 Scenario.cold)
       = inl e.
Proof.
  assert (H : store_write_fails Scenario.full_disk) by (left; discriminate).
  split; [exact H|].
  destruct (write_failure_is_raised Scenario.full_disk
              (hash_prompt Scenario.hi default_temperature) (Scenario.seconds 0)
              (mkChoice (mkMessage "hello there")) [] Scenario.cold H)
    as (e & He & _).
  exists e. exact He.
Defined.

(** * Further properties *)

(** X18. The module is refused when it is loaded: the body of
    [cached_completion] yields (l.37, l.51) and returns a value (l.39,
    l.58) in one [async def], so Python raises SyntaxError at l.39 before
    any statement of the file runs.  Whatever the request, the table, the
    backend and SQLite, the caller gets that error: no lookup is made, the
    backend is not called, nothing is written and nothing is yielded. *)
Theorem no_request_is_served (env : Env) (messages : Messages) (model : string)
    (temperature : Temperature) (stream : bool) (w : World) :
  let o := cached_completion env messages model temperature stream w in
  compile_async_def cached_completion_def
  = Some (SyntaxError "'return' with value in async generator" 39)
  /\ result o = inl (SyntaxError "'return' with value in async generator" 39)
  /\ events o = []
  /\ final o = w.
Proof. cbv zeta. rewrite cached_completion_refused. repeat split. Qed.

(** ** The table, statement by statement *)

(** X10. With the primary key in force, the lookup of the key of a stored
    row gives the response of that row. *)
Theorem lookup_finds_the_stored_row (t : Table) (r : Row) :
  unique_keys t ->
  List.In r t ->
  select_response t (hash r) = Some (response r).
Proof.
  unfold unique_keys, select_response.
  induction t as [|x t IH]; intros Hu Hin; [destruct Hin|].
  simpl in Hu. inversion Hu as [|? ? Hnin Hnd]; subst.
  simpl. unfold has_hash at 1.
  destruct (String.eqb_spec (hash x) (hash r)) as [E|E].
  - destruct Hin as [->|Hin]; [reflexivity|].
    exfalso. apply Hnin. rewrite E. now apply List.in_map.
  - destruct Hin as [->|Hin]; [congruence|]. now apply IH.
Qed.

Lemma lookup_finds_the_stored_row_witness :
  unique_keys [mkRow "k1" "one" (Scenario.seconds 0); mkRow "k2" "two" (Scenario.seconds 1)]
  /\ List.In (mkRow "k2" "two" (Scenario.seconds 1))
       [mkRow "k1" "one" (Scenario.seconds 0); mkRow "k2" "two" (Scenario.seconds 1)]
  /\ select_response
       [mkRow "k1" "one" (Scenario.seconds 0); mkRow "k2" "two" (Scenario.seconds 1)] "k2"
     = Some "two".
Proof.
  assert (H1 : unique_keys [mkRow "k1" "one" (Scenario.seconds 0);
                            mkRow "k2" "two" (Scenario.seconds 1)]).
  { repeat constructor; simpl; intuition discriminate. }
  assert (H2 : List.In (mkRow "k2" "two" (Scenario.seconds 1))
                 [mkRow "k1" "one" (Scenario.seconds 0);
                  mkRow "k2" "two" (Scenario.seconds 1)])
    by (right; left; reflexivity).
  split; [exact H1|]. split; [exact H2|].
  exact (lookup_finds_the_stored_row _ (mkRow "k2" "two" (Scenario.seconds 1)) H1 H2).
Defined.

(** X11. INSERT OR REPLACE, then SELECT: the lookup of the written key
    gives the written response, whatever was stored under it before, and
    the lookup of any other key is unchanged. *)
Theorem put_then_lookup (k v h : string) (ts : Timestamp) (t : Table) :
  h <> k ->
  select_response (put k v ts t) k = Some v
  /\ select_response (put k v ts t) h = select_response t h.
Proof.
  intros Hne. split.
  - apply (select_after_insert t (mkRow k v ts)).
  - unfold select_response, put.
    now rewrite (filter_other_insert t (mkRow k v ts) h).
Qed.

Lemma put_then_lookup_witness :
  "k2" <> "k1"
  /\ select_response
       (put "k1" "new" (Scenario.seconds 5)
          [mkRow "k1" "old" (Scenario.seconds 0); mkRow "k2" "two" (Scenario.seconds 1)])
       "k1"
     = Some "new".
Proof.
  assert (H : "k2" <> "k1") by discriminate.
  split; [exact H|].
  exact (proj1 (put_then_lookup "k1" "new" "k2" (Scenario.seconds 5)
                  [mkRow "k1" "old" (Scenario.seconds 0);
                   mkRow "k2" "two" (Scenario.seconds 1)] H)).
Defined.

(** ** The shape of a replay *)

Fixpoint count_spaces (s : string) : nat :=
  match s with
  | EmptyString => 0
  | String c rest => (if Ascii.eqb c Py.space then 1 else 0) + count_spaces rest
  end.

Lemma split_space_length (s : string) :
  List.length (Py.split_space s) = S (count_spaces s).
Proof.
  induction s as [|c s IH]; [reflexivity|].
  simpl. destruct (Ascii.eqb c Py.space); simpl.
  - now rewrite IH.
  - destruct (Py.split_space s) as [|x xs]; [discriminate IH | exact IH].
Qed.

Lemma contains_space_cons (c : ascii) (w : string) :
  Ascii.eqb c Py.space = false ->
  Py.contains Py.space w = false ->
  Py.contains Py.space (String c w) = false.
Proof.
  intros Hc Hw.
  change (Py.contains Py.space (String c w))
    with (Ascii.eqb Py.space c || Py.contains Py.space w).
  now rewrite Ascii.eqb_sym, Hc, Hw.
Qed.

Lemma split_space_fragments (s : string) :
  List.Forall (fun frag => Py.contains Py.space frag = false) (Py.split_space s).
Proof.
  induction s as [|c s IH]; [repeat constructor|].
  cbn [Py.split_space]. destruct (Ascii.eqb c Py.space) eqn:E.
  - constructor; [reflexivity | exact IH].
  - destruct (Py.split_space s) as [|x xs].
    + constructor; [|constructor]. now apply contains_space_cons.
    + inversion IH as [|? ? Hx Hxs]; subst. constructor; [|exact Hxs].
      now apply contains_space_cons.
Qed.

(** X12. The replay loop of l.36-37 is written to yield, for a cached
    text with [n] space characters, [n + 1] chunks, one per fragment of
    [split(' ')] (empty fragments included); each chunk carries one
    delta, a fragment without a space followed by one space. *)
Theorem replay_is_one_chunk_per_fragment (text : string) :
  List.length (replay_chunks text) = S (count_spaces text)
  /\ List.Forall
       (fun ch => exists frag,
            ch = chunk_of (frag ++ " ") /\ Py.contains Py.space frag = false)
       (replay_chunks text).
Proof.
  unfold replay_chunks. split.
  - now rewrite List.length_map, split_space_length.
  - apply List.Forall_map.
    eapply List.Forall_impl; [|apply split_space_fragments].
    intros frag Hfrag. now exists frag.
Qed.

(** ** The shape of a key *)

Definition hex_alphabet : string := "0123456789abcdef".

Fixpoint all_hex (s : string) : bool :=
  match s with
  | EmptyString => true
  | String c rest => Py.contains c hex_alphabet && all_hex rest
  end.

Lemma be_bytes_length (n : nat) (x : Z) : List.length (Sha256.be_bytes n x) = n.
Proof.
  revert x. induction n as [|n IH]; intros x; [reflexivity|].
  simpl. rewrite List.length_app, IH. simpl. lia.
Qed.

Lemma be_bytes_range (n : nat) (x : Z) :
  List.Forall (fun b => (0 <= b < 256)%Z) (Sha256.be_bytes n x).
Proof.
  revert x. induction n as [|n IH]; intros x; [constructor|].
  simpl. apply List.Forall_app. split; [apply IH|].
  constructor; [|constructor]. apply Z.mod_pos_bound. lia.
Qed.

Lemma compress_length (h block : list Z) :
  List.length h = 8%nat -> List.length (Sha256.compress h block) = 8%nat.
Proof.
  intros Hh. unfold Sha256.compress. cbv zeta.
  rewrite List.length_map, List.length_combine, Hh. reflexivity.
Qed.

Lemma fold_compress_length (bs : list (list Z)) (h : list Z) :
  List.length h = 8%nat ->
  List.length (List.fold_left Sha256.compress bs h) = 8%nat.
Proof.
  revert h. induction bs as [|b bs IH]; intros h Hh; [exact Hh|].
  simpl. apply IH. now apply compress_length.
Qed.

Lemma flat_be_bytes_length (ws : list Z) :
  List.length (List.flat_map (Sha256.be_bytes 4) ws) = (4 * List.length ws)%nat.
Proof.
  induction ws as [|x ws IH]; [reflexivity|].
  cbn [List.flat_map]. rewrite List.length_app, be_bytes_length, IH.
  cbn [List.length]. lia.
Qed.

Lemma flat_be_bytes_range (ws : list Z) :
  List.Forall (fun b => (0 <= b < 256)%Z) (List.flat_map (Sha256.be_bytes 4) ws).
Proof.
  induction ws as [|x ws IH]; [constructor|].
  cbn [List.flat_map]. apply List.Forall_app. split; [apply be_bytes_range | exact IH].
Qed.

Lemma digest_length (msg : list Z) : List.length (Sha256.digest msg) = 32%nat.
Proof.
  unfold Sha256.digest, Sha256.digest_words. cbv zeta.
  rewrite flat_be_bytes_length, fold_compress_length; reflexivity.
Qed.

Lemma hex_of_bytes_length (bs : list Z) :
  String.length (Sha256.hex_of_bytes bs) = (2 * List.length bs)%nat.
Proof.
  induction bs as [|b bs IH]; [reflexivity|].
  cbn [Sha256.hex_of_bytes String.length List.length]. rewrite IH. lia.
Qed.

Lemma hex_digit_in_alphabet (d : Z) :
  (0 <= d < 16)%Z -> Py.contains (Sha256.hex_digit d) hex_alphabet = true.
Proof.
  intros Hd.
  assert (H : (d = 0 \/ d = 1 \/ d = 2 \/ d = 3 \/ d = 4 \/ d = 5 \/ d = 6 \/ d = 7
               \/ d = 8 \/ d = 9 \/ d = 10 \/ d = 11 \/ d = 12 \/ d = 13 \/ d = 14
               \/ d = 15)%Z) by lia.
  repeat (destruct H as [->|H]; [reflexivity|]). subst d. reflexivity.
Qed.

Lemma hex_of_bytes_all_hex (bs : list Z) :
  List.Forall (fun b => (0 <= b < 256)%Z) bs ->
  all_hex (Sha256.hex_of_bytes bs) = true.
Proof.
  induction 1 as [|b bs Hb _ IH]; [reflexivity|].
  cbn [Sha256.hex_of_bytes all_hex].
  rewrite !hex_digit_in_alphabet, IH; [reflexivity| |].
  - apply Z.mod_pos_bound. lia.
  - split; [apply Z.div_pos; lia | apply Z.div_lt_upper_bound; lia].
Qed.

(** X13. Every key is a text of 64 characters, each one of
    [0123456789abcdef], whatever the messages and the temperature. *)
Theorem key_is_64_hex_digits (messages : Messages) (temperature : Temperature) :
  String.length (hash_prompt messages temperature) = 64%nat
  /\ all_hex (hash_prompt messages temperature) = true.
Proof.
  unfold hash_prompt, Sha256.hexdigest. cbv zeta. split.
  - now rewrite hex_of_bytes_length, digest_length.
  - apply hex_of_bytes_all_hex. unfold Sha256.digest. apply flat_be_bytes_range.
Qed.

(** ** The hashed text

    [prompt_str] is [str(messages) + str(temperature)].  The [repr] of a
    list of dicts of texts can be read back from the front of any text it
    starts: every character of a quoted text is written in a way that
    tells where it ends, the closing quote ends the text, and [", "],
    ["}"] and ["]"] tell whether a dict or the list goes on. *)

Definition prompt_str (messages : Messages) (temperature : Temperature) : string :=
  (Py.repr_list messages ++ PyNum.str temperature)%string.

Definition hex_value (a : ascii) : nat :=
  let n := nat_of_ascii a in
  if Nat.ltb n 58 then n - 48 else n - 87.

(** Reading one character of a quoted text back: [None] at the closing
    quote. *)
Definition unescape (q : ascii) (s : string) : option (ascii * string) :=
  match s with
  | EmptyString => None
  | String b rest =>
      if Ascii.eqb b Py.backslash then
        match rest with
        | EmptyString => None
        | String e rest' =>
            if Ascii.eqb e "t" then Some (ascii_of_nat 9, rest')
            else if Ascii.eqb e "n" then Some (ascii_of_nat 10, rest')
            else if Ascii.eqb e "r" then Some (ascii_of_nat 13, rest')
            else if Ascii.eqb e "x" then
              match rest' with
              | String h1 (String h2 rest'') =>
                  Some (ascii_of_nat (16 * hex_value h1 + hex_value h2), rest'')
              | _ => None
              end
            else Some (e, rest')
        end
      else if Ascii.eqb b q then None
      else Some (b, rest)
  end.

Definition is_quote (q : ascii) : Prop := q = Py.quote \/ q = Py.dquote.

Lemma unescape_repr_char (q c : ascii) (rest : string) :
  is_quote q -> unescape q (Py.repr_char q c ++ rest) = Some (c, rest).
Proof.
  intros [-> | ->];
    destruct c as [[|] [|] [|] [|] [|] [|] [|] [|]]; reflexivity.
Qed.

Lemma unescape_closing_quote (q : ascii) (rest : string) :
  is_quote q -> unescape q (String q rest) = None.
Proof. intros [-> | ->]; reflexivity. Qed.

Lemma repr_body_reads_back (q : ascii) (a b x y : string) :
  is_quote q ->
  (Py.repr_body q a ++ String q x)%string = (Py.repr_body q b ++ String q y)%string ->
  a = b /\ x = y.
Proof.
  intros Hq. revert b.
  induction a as [|c a IH]; intros [|d b] E; cbn [Py.repr_body String.append] in E.
  - injection E as E. now split.
  - apply (f_equal (unescape q)) in E.
    rewrite append_assoc, unescape_repr_char, unescape_closing_quote in E by exact Hq.
    discriminate.
  - apply (f_equal (unescape q)) in E.
    rewrite append_assoc, unescape_repr_char, unescape_closing_quote in E by exact Hq.
    discriminate.
  - apply (f_equal (unescape q)) in E.
    rewrite !append_assoc, !unescape_repr_char in E by exact Hq.
    injection E as Ec E. subst d.
    destruct (IH b E) as [-> ->]. now split.
Qed.

Definition quote_of (s : string) : ascii :=
  if Py.contains Py.quote s && negb (Py.contains Py.dquote s) then Py.dquote
  else Py.quote.

Lemma quote_of_is_quote (s : string) : is_quote (quote_of s).
Proof. unfold quote_of, is_quote. destruct (_ && _); auto. Qed.

Lemma repr_str_then (s x : string) :
  (Py.repr_str s ++ x)%string
  = String (quote_of s) (Py.repr_body (quote_of s) s ++ String (quote_of s) x).
Proof.
  unfold Py.repr_str. fold (quote_of s). cbv zeta.
  cbn [String.append]. now rewrite append_assoc.
Qed.

(** A quoted text can be read back from the front of whatever follows. *)
Lemma repr_str_reads_back (a b x y : string) :
  (Py.repr_str a ++ x)%string = (Py.repr_str b ++ y)%string -> a = b /\ x = y.
Proof.
  rewrite !repr_str_then. intros E. injection E as Eq E.
  rewrite <- Eq in E.
  exact (repr_body_reads_back (quote_of a) a b x y (quote_of_is_quote a) E).
Qed.

Lemma repr_item_reads_back (i j : string * string) (x y : string) :
  (Py.repr_item i ++ x)%string = (Py.repr_item j ++ y)%string -> i = j /\ x = y.
Proof.
  destruct i as [k v], j as [k' v']. unfold Py.repr_item. cbn [fst snd].
  rewrite !append_assoc. intros E.
  apply repr_str_reads_back in E as [-> E].
  apply append_inj_l in E.
  apply repr_str_reads_back in E as [-> ->]. now split.
Qed.

Section Joined.
Variables (A : Type) (enc : A -> string) (close : ascii).
Hypothesis enc_reads_back :
  forall a b x y, (enc a ++ x)%string = (enc b ++ y)%string -> a = b /\ x = y.
Hypothesis enc_not_close : forall a x y, (enc a ++ x)%string <> String close y.
Hypothesis close_not_comma : close <> ","%char.

(** What follows the first item of a joined list. *)
Definition after_first (l : list A) : string :=
  match l with
  | [] => EmptyString
  | _ => (", " ++ Py.join ", " (List.map enc l))%string
  end.

Lemma join_cons (a : A) (l : list A) :
  Py.join ", " (List.map enc (a :: l)) = (enc a ++ after_first l)%string.
Proof.
  destruct l as [|b l]; [cbn; now rewrite append_empty_r | reflexivity].
Qed.

Lemma join_reads_back (l l' : list A) (x y : string) :
  (Py.join ", " (List.map enc l) ++ String close x)%string
  = (Py.join ", " (List.map enc l') ++ String close y)%string ->
  l = l' /\ x = y.
Proof.
  revert l'. induction l as [|a l IH]; intros [|b l'] E.
  - cbn in E. injection E as E. now split.
  - rewrite join_cons, append_assoc in E. cbn [List.map Py.join String.append] in E.
    symmetry in E. now apply enc_not_close in E.
  - rewrite join_cons, append_assoc in E. cbn [List.map Py.join String.append] in E.
    now apply enc_not_close in E.
  - rewrite !join_cons, !append_assoc in E.
    apply enc_reads_back in E as [-> E].
    destruct l as [|c l], l' as [|c' l']; cbn [after_first] in E.
    + cbn [String.append] in E. injection E as E. now split.
    + cbn [String.append] in E. injection E as Ec _. now apply close_not_comma in Ec.
    + cbn [String.append] in E. injection E as Ec _. symmetry in Ec.
      now apply close_not_comma in Ec.
    + rewrite !append_assoc in E. apply append_inj_l in E.
      destruct (IH (c' :: l') E) as [El ->]. rewrite El. now split.
Qed.
End Joined.

Lemma repr_dict_reads_back (d d' : Py.dict) (x y : string) :
  (Py.repr_dict d ++ x)%string = (Py.repr_dict d' ++ y)%string -> d = d' /\ x = y.
Proof.
  unfold Py.repr_dict. rewrite !append_assoc. intros E.
  apply append_inj_l in E.
  change ("}" ++ x)%string with (String "}" x) in E.
  change ("}" ++ y)%string with (String "}" y) in E.
  apply (join_reads_back _ Py.repr_item "}"%char) in E; [exact E| | |discriminate].
  - apply repr_item_reads_back.
  - intros [k v] x' y'. unfold Py.repr_item. cbn [fst].
    rewrite append_assoc, repr_str_then.
    intros E'. injection E' as Eq _.
    destruct (quote_of_is_quote k) as [Hq|Hq]; rewrite Hq in Eq; discriminate.
Qed.

(** [str(messages)] can be read back from the front of any text it
    starts. *)
Lemma repr_list_reads_back (m m' : Messages) (x y : string) :
  (Py.repr_list m ++ x)%string = (Py.repr_list m' ++ y)%string -> m = m' /\ x = y.
Proof.
  unfold Py.repr_list. rewrite !append_assoc. intros E.
  apply append_inj_l in E.
  change ("]" ++ x)%string with (String "]" x) in E.
  change ("]" ++ y)%string with (String "]" y) in E.
  apply (join_reads_back _ Py.repr_dict "]"%char) in E; [exact E| | |discriminate].
  - apply repr_dict_reads_back.
  - intros d x' y'. unfold Py.repr_dict. rewrite !append_assoc. cbn [String.append].
    discriminate.
Qed.

(** X14. The text that is hashed tells the request apart: two requests
    whose messages differ (another dict, key, value or order), or whose
    temperatures print differently, are never hashed from the same text.
    Appending the temperature to the messages blurs nothing. *)
Theorem hashed_text_tells_the_request (m1 m2 : Messages) (t1 t2 : Temperature) :
  m1 <> m2 \/ PyNum.str t1 <> PyNum.str t2 ->
  prompt_str m1 t1 <> prompt_str m2 t2.
Proof.
  unfold prompt_str. intros Hne E.
  apply repr_list_reads_back in E as [Em Et].
  destruct Hne as [Hne|Hne]; now apply Hne.
Qed.

Lemma hashed_text_tells_the_request_witness :
  ([[("role", "a"); ("content", "b,c")]] <> [[("role", "a,"); ("content", "b")]]
   \/ PyNum.str default_temperature <> PyNum.str default_temperature)
  /\ prompt_str [[("role", "a"); ("content", "b,c")]] default_temperature
     <> prompt_str [[("role", "a,"); ("content", "b")]] default_temperature.
Proof.
  assert (H : [[("role", "a"); ("content", "b,c")]]
              <> [[("role", "a,"); ("content", "b")]]
              \/ PyNum.str default_temperature <> PyNum.str default_temperature)
    by (left; discriminate).
  split; [exact H|].
  exact (hashed_text_tells_the_request
           [[("role", "a"); ("content", "b,c")]] [[("role", "a,"); ("content", "b")]]
           default_temperature default_temperature H).
Defined.

(** *** Numbers as temperatures *)

Lemma contains_app (c : ascii) (a b : string) :
  Py.contains c (a ++ b) = Py.contains c a || Py.contains c b.
Proof.
  induction a as [|x a IH]; [reflexivity|].
  cbn [String.append Py.contains]. now rewrite IH, Bool.orb_assoc.
Qed.

Lemma dec_of_Z_inj (z1 z2 : Z) : PyNum.dec_of_Z z1 = PyNum.dec_of_Z z2 -> z1 = z2.
Proof.
  unfold PyNum.dec_of_Z. intros E. apply DecimalZ.to_int_inj.
  assert (Hnn : forall z, Z.to_int z <> Decimal.Pos Decimal.Nil
                          /\ Z.to_int z <> Decimal.Neg Decimal.Nil).
  { intros [|p|p]; split; try discriminate;
      intros [= H]; now apply DecimalPos.Unsigned.to_uint_nonnil in H. }
  apply (f_equal NilZero.int_of_string) in E.
  rewrite !NilZero.isi in E by apply Hnn.
  now injection E.
Qed.

(** X15. With integer temperatures the hashed text tells the whole
    request apart: two requests that differ in their messages or in their
    temperature are never hashed from the same text. *)
Theorem integer_temperature_read_back (m1 m2 : Messages) (z1 z2 : Z) :
  m1 <> m2 \/ z1 <> z2 ->
  prompt_str m1 (PyNum.PyInt z1) <> prompt_str m2 (PyNum.PyInt z2).
Proof.
  unfold prompt_str. intros Hne E.
  apply repr_list_reads_back in E as [Em Ez].
  destruct Hne as [Hne|Hne]; [now apply Hne|].
  apply Hne. now apply dec_of_Z_inj.
Qed.

Lemma integer_temperature_read_back_witness :
  (Scenario.hi <> Scenario.hi \/ 0%Z <> 1%Z)
  /\ prompt_str Scenario.hi (PyNum.PyInt 0) <> prompt_str Scenario.hi (PyNum.PyInt 1).
Proof.
  assert (H : Scenario.hi <> Scenario.hi \/ 0%Z <> 1%Z) by (right; discriminate).
  split; [exact H|].
  exact (integer_temperature_read_back Scenario.hi Scenario.hi 0 1 H).
Defined.

(** The text of an integer is made of digits and a sign. *)
Lemma dec_of_Z_chars (c : ascii) (z : Z) :
  Py.contains c "-0123456789" = false ->
  Py.contains c (PyNum.dec_of_Z z) = false.
Proof.
  intros H. cbn [Py.contains] in H.
  repeat (apply Bool.orb_false_iff in H as [? H]).
  assert (Hu : forall d, Py.contains c (NilEmpty.string_of_uint d) = false).
  { induction d; cbn [NilEmpty.string_of_uint Py.contains]; rewrite ?IHd;
      try reflexivity; now rewrite Bool.orb_false_r. }
  unfold PyNum.dec_of_Z, NilZero.string_of_int, NilZero.string_of_uint.
  destruct (Z.to_int z) as [d|d].
  - destruct d; try apply Hu. cbn [Py.contains]. now rewrite Bool.orb_false_r.
  - cbn [Py.contains].
    replace (Ascii.eqb c "-") with false by (symmetry; assumption).
    destruct d; try apply Hu. cbn [Py.contains orb]. now rewrite Bool.orb_false_r.
Qed.

(** The text of a float has a point, an exponent, or is inf or nan. *)
Definition float_mark (s : string) : bool :=
  Py.contains "." s || Py.contains "e" s || Py.contains "n" s.

Lemma format_r_mark (ds : string) (point : Z) :
  float_mark (PyNum.format_r ds point) = true.
Proof.
  unfold float_mark, PyNum.format_r. cbv zeta.
  destruct ((point <=? -4)%Z || (16 <? point)%Z).
  - rewrite (contains_app "e"), (contains_app "e" "e").
    cbn [Py.contains Ascii.eqb Bool.eqb]. cbn [orb].
    now rewrite !Bool.orb_true_r.
  - destruct (point <=? 0)%Z; [reflexivity|].
    destruct (point <? Z.of_nat (String.length ds))%Z.
    + rewrite (contains_app "."), (contains_app "." ".").
      cbn [Py.contains Ascii.eqb Bool.eqb]. cbn [orb].
      now rewrite !Bool.orb_true_r.
    + rewrite (contains_app "."), (contains_app ".").
      cbn [Py.contains Ascii.eqb Bool.eqb]. cbn [orb].
      now rewrite !Bool.orb_true_r.
Qed.

Lemma repr_float_mark (f : PyNum.float) : float_mark (PyNum.repr_float f) = true.
Proof.
  destruct f as [[|]|[|]| |sg m e]; try reflexivity.
  cbn [PyNum.repr_float]. unfold PyNum.repr_finite. cbv zeta.
  destruct (PyNum.shortest _ _ _ _ _ _ _ _) as [c q].
  pose proof (format_r_mark
                (PyNum.dec_of_Z (PyNum.strip_zeros 20 c))
                (q + Z.of_nat (String.length (PyNum.dec_of_Z c)))) as H.
  unfold float_mark in *. rewrite !contains_app.
  destruct (Py.contains "." (PyNum.format_r _ _)); [now rewrite !Bool.orb_true_r|].
  destruct (Py.contains "e" (PyNum.format_r _ _)); [now rewrite !Bool.orb_true_r|].
  cbn [orb] in H. rewrite H. now rewrite !Bool.orb_true_r.
Qed.

(** X16. An integer temperature and a float temperature never print the
    same, so a request with [temperature=1] and one with [temperature=1.0]
    are hashed from different texts, whatever their messages. *)
Theorem int_and_float_hashed_apart (m1 m2 : Messages) (z : Z) (f : PyNum.float) :
  PyNum.str (PyNum.PyInt z) <> PyNum.str (PyNum.PyFloat f)
  /\ prompt_str m1 (PyNum.PyInt z) <> prompt_str m2 (PyNum.PyFloat f).
Proof.
  assert (Hne : PyNum.str (PyNum.PyInt z) <> PyNum.str (PyNum.PyFloat f)).
  { cbn [PyNum.str]. intros E.
    pose proof (repr_float_mark f) as Hm. rewrite <- E in Hm.
    unfold float_mark in Hm.
    rewrite !dec_of_Z_chars in Hm by reflexivity. discriminate. }
  split; [exact Hne|].
  unfold prompt_str. intros E. apply repr_list_reads_back in E as [_ E].
  now apply Hne.
Qed.
